(** * The stdio-to-HTTP bridge of [dev-utils/wrapper.py]

    The script reads request lines from standard input, forwards every
    non-blank one as an HTTP POST to a fixed endpoint and relays the body of
    a 200 response on standard output; everything else it has to say goes to
    standard error through [log].

    The embedding is shallow.  Python text is a list of Unicode code points,
    the three streams and the network are one trace of events, and the code
    runs in a small state-and-exception monad over that trace.  What the
    downstream service answers is not decided by the script: it is a
    parameter, [downstream n] being the outcome of the request issued after
    [n] earlier ones. *)

From Stdlib Require Import List ZArith NArith String Ascii Bool Lia DecimalString.
Import ListNotations.

(* ================================================================= *)
(** ** Python text *)

Module Py.

(** A [str] is a sequence of code points. *)
Definition char := N.
Definition str := list char.

(** A literal of the source, written as a Rocq string of ASCII characters. *)
Definition lit (s : string) : str := map N_of_ascii (list_ascii_of_string s).

(** The literal ["\n"]. *)
Definition nl : str := [10%N].

(** [str.isspace] on one character: the code points CPython lists in
    [_PyUnicode_IsWhitespace]. *)
Definition isspace (c : char) : bool :=
  ((9 <=? c) && (c <=? 13) || (28 <=? c) && (c <=? 32)
   || (c =? 133) || (c =? 160) || (c =? 5760)
   || (8192 <=? c) && (c <=? 8202)
   || (c =? 8232) || (c =? 8233) || (c =? 8239) || (c =? 8287)
   || (c =? 12288))%N.

Fixpoint lstrip (s : str) : str :=
  match s with
  | [] => []
  | c :: s' => if isspace c then lstrip s' else s
  end.

Definition rstrip (s : str) : str := rev (lstrip (rev s)).

(** [s.strip()]: leading, then trailing whitespace removed. *)
Definition strip (s : str) : str := rstrip (lstrip s).

(** [str(n)] for an [int]. *)
Definition str_of_int (n : Z) : str := lit (NilZero.string_of_int (Z.to_int n)).

(** [needle in hay]. *)
Fixpoint startswith (s prefix : str) : bool :=
  match prefix, s with
  | [], _ => true
  | p :: prefix', c :: s' => (p =? c)%N && startswith s' prefix'
  | _ :: _, [] => false
  end.

Fixpoint contains (hay needle : str) : bool :=
  startswith hay needle ||
  match hay with
  | [] => false
  | _ :: hay' => contains hay' needle
  end.

(** Whitespace-only text, the empty text included (the spec's "blank"). *)
Definition blank (s : str) : bool := forallb isspace s.

(** Test data: a literal in which the apostrophe stands for the double
    quote of a JSON document. *)
Definition json (s : string) : str :=
  map (fun c => if (c =? 39)%N then 34%N else c) (lit s).

End Py.

Import Py.

(* ================================================================= *)
(** ** What the script can observe and do *)

(** The exceptions a run can meet.  [RequestException] stands for every
    instance of [requests.exceptions.RequestException] and carries [str(e)];
    [KeyboardInterrupt] is the interrupt.  These two the script has handlers
    for.  [OtherException] stands for every exception that is an instance of
    neither, for which it has none: a [UnicodeEncodeError] that
    [requests.post] raises on a payload it cannot encode, a
    [UnicodeDecodeError] raised when the input cannot be decoded. *)
Inductive exn :=
| RequestException (detail : str)
| KeyboardInterrupt
| OtherException (detail : str).

(** A [requests.Response], as far as the script reads it. *)
Record response := mkResponse { status_code : Z; text : str }.

(** One call of [requests.post] either returns a response or raises. *)
Inductive outcome :=
| Returns (r : response)
| Raises (e : exn).

Inductive http_method := GET | POST.

Record request := mkRequest {
  method : http_method;
  url : str;
  data : str;
  headers : list (str * str);
  timeout : Z
}.

(** Everything the process does to the outside, in program order. *)
Inductive event :=
| StdoutWrite (s : str)
| StdoutFlush
| StderrWrite (s : str)
| StderrFlush
| Http (rq : request) (o : outcome).

Definition world := list event.

(** What [next(sys.stdin)] does: it yields a line, or an interrupt is
    delivered while the read blocks, or the read itself raises (the bytes read
    are not text in the stream's encoding).  The end of the list is
    end-of-file. *)
Inductive read :=
| Line (l : str)
| SigInt
| ReadError (detail : str).

(** *** Projections of a trace *)

Definition stdout_of (t : world) : list str :=
  flat_map (fun e => match e with StdoutWrite s => [s] | _ => [] end) t.

Definition stderr_of (t : world) : list str :=
  flat_map (fun e => match e with StderrWrite s => [s] | _ => [] end) t.

Definition requests_of (t : world) : list request :=
  flat_map (fun e => match e with Http rq _ => [rq] | _ => [] end) t.

Definition outcomes_of (t : world) : list outcome :=
  flat_map (fun e => match e with Http _ o => [o] | _ => [] end) t.

(** Number of requests issued so far. *)
Definition sent (t : world) : nat := List.length (requests_of t).

(* ================================================================= *)
(** ** The monad the script runs in *)

Inductive result (A : Type) :=
| Val (a : A)
| Exc (e : exn).

Arguments Val {A} a.
Arguments Exc {A} e.

Definition M (A : Type) := world -> result A * world.

Definition ret {A} (a : A) : M A := fun w => (Val a, w).

Definition bind {A B} (m : M A) (k : A -> M B) : M B :=
  fun w => match m w with
           | (Val a, w') => k a w'
           | (Exc e, w') => (Exc e, w')
           end.

Definition raise {A} (e : exn) : M A := fun w => (Exc e, w).

(** [try: body / except ...: handler]; a handler re-raises what its
    [except] clause does not match. *)
Definition try_except {A} (body : M A) (handler : exn -> M A) : M A :=
  fun w => match body w with
           | (Val a, w') => (Val a, w')
           | (Exc e, w') => handler e w'
           end.

Definition emit (e : event) : M unit := fun w => (Val tt, w ++ [e]).

Declare Scope py_scope.
Delimit Scope py_scope with py.
Notation "x <- c1 ;; c2" := (bind c1 (fun x => c2))
  (at level 61, c1 at next level, right associativity) : py_scope.
Notation "c1 ;; c2" := (bind c1 (fun _ => c2))
  (at level 61, right associativity) : py_scope.
Local Open Scope py_scope.

Definition stdout_write (s : str) : M unit := emit (StdoutWrite s).
Definition stdout_flush : M unit := emit StdoutFlush.
Definition stderr_write (s : str) : M unit := emit (StderrWrite s).
Definition stderr_flush : M unit := emit StderrFlush.

(* ================================================================= *)
(** ** The script *)

Definition HTTP_SERVER_URL : str := lit "http://localhost:9000/mcp/v1/chinook/".

(** The tag [log] puts before every message. *)
Definition LOG_TAG : str := lit "BRIDGE-LOG: ".

(** [def log(message)] *)
Definition log (message : str) : M unit :=
  stderr_write (LOG_TAG ++ message ++ nl) ;;
  stderr_flush.

Section Script.

(** The downstream service: the outcome of the request issued after [n]
    earlier ones. *)
Variable downstream : nat -> outcome.

(** [requests.post(url, data=..., headers=..., timeout=...)] *)
Definition requests_post (u : str) (d : str) (h : list (str * str)) (t : Z)
  : M response :=
  fun w =>
    let o := downstream (sent w) in
    let w' := w ++ [Http (mkRequest POST u d h t) o] in
    match o with
    | Returns r => (Val r, w')
    | Raises e => (Exc e, w')
    end.

(** The body of [for line in sys.stdin]. *)
Definition loop_body (line : str) : M unit :=
  match strip line with
  | [] => ret tt
  | _ :: _ =>
    let payload := strip line in
    log (lit "Received Request: " ++ firstn 100 payload ++ lit "...") ;;
    try_except
      (response <- requests_post HTTP_SERVER_URL payload
                     [(lit "Content-Type", lit "application/json")] 30 ;;
       if (status_code response =? 200)%Z then
         stdout_write (text response ++ nl) ;;
         stdout_flush
       else
         log (lit "Server Error: " ++ str_of_int (status_code response)
              ++ lit " - " ++ text response))
      (fun e =>
         match e with
         | RequestException detail =>
           log (lit "HTTP Connection Error: " ++ detail)
         | KeyboardInterrupt => raise KeyboardInterrupt
         | OtherException x => raise (OtherException x)
         end)
  end.

(** [for line in sys.stdin: ...] *)
Fixpoint for_line_in (stdin : list read) (body : str -> M unit) : M unit :=
  match stdin with
  | [] => ret tt
  | SigInt :: _ => raise KeyboardInterrupt
  | ReadError x :: _ => raise (OtherException x)
  | Line line :: rest => body line ;; for_line_in rest body
  end.

(** [def main()] *)
Definition main (stdin : list read) : M unit :=
  log (lit "Starting MCP Stdio-to-HTTP Bridge...") ;;
  try_except
    (for_line_in stdin loop_body)
    (fun e =>
       match e with
       | KeyboardInterrupt => log (lit "Bridge shutting down.")
       | RequestException detail => raise (RequestException detail)
       | OtherException x => raise (OtherException x)
       end).

End Script.

(** The status the interpreter exits with once [main()] is over: 0 when it
    returned, the interpreter's codes for an uncaught exception otherwise. *)
Definition exit_code (r : result unit) : Z :=
  match r with
  | Val _ => 0
  | Exc KeyboardInterrupt => 130
  | Exc (RequestException _) => 1
  | Exc (OtherException _) => 1
  end.


(* ================================================================= *)
(** ** Vocabulary of the statements *)

(** What one call [log(message)] puts on standard error. *)
Definition log_events (message : str) : list event :=
  [StderrWrite (LOG_TAG ++ message ++ nl); StderrFlush].

(** The messages of the script's five [log] calls. *)
Definition msg_starting : str := lit "Starting MCP Stdio-to-HTTP Bridge...".
Definition msg_received (payload : str) : str :=
  lit "Received Request: " ++ firstn 100 payload ++ lit "...".
Definition msg_server_error (r : response) : str :=
  lit "Server Error: " ++ str_of_int (status_code r) ++ lit " - " ++ text r.
Definition msg_connection_error (detail : str) : str :=
  lit "HTTP Connection Error: " ++ detail.
Definition msg_shutdown : str := lit "Bridge shutting down.".

(** The request the script builds for a payload. *)
Definition post_of (payload : str) : request :=
  mkRequest POST HTTP_SERVER_URL payload
            [(lit "Content-Type", lit "application/json")] 30.

(** One iteration of the loop seen from outside: what it appends to the
    trace and how it ends, when the request it issues (if any) has outcome
    [o].  Both are read off [loop_body] itself, run on the empty trace. *)
Definition line_events (line : str) (o : outcome) : list event :=
  snd (loop_body (fun _ => o) line []).

Definition line_result (line : str) (o : outcome) : result unit :=
  fst (loop_body (fun _ => o) line []).

(** The lines of an input stream, interrupts and failed reads left out. *)
Definition lines_of (stdin : list read) : list str :=
  flat_map (fun x => match x with Line l => [l] | _ => [] end) stdin.



Definition nonblank (l : str) : bool := negb (blank l).

Definition interrupts (o : outcome) : bool :=
  match o with Raises KeyboardInterrupt => true | _ => false end.

(** The request raises an exception the script has no handler for. *)
Definition uncaught (o : outcome) : bool :=
  match o with Raises (OtherException _) => true | _ => false end.

(** What a response contributes to standard output. *)
Definition relayed (o : outcome) : list str :=
  match o with
  | Returns r => if (status_code r =? 200)%Z then [text r ++ nl] else []
  | Raises _ => []
  end.

(** The output stream as the specification describes it: the non-blank
    lines are the requests, the [i]-th of them is answered by the [i]-th
    outcome, and the bodies of the 200 responses are written in that order,
    each followed by a newline. *)
Definition spec_output (lines : list str) (downstream : nat -> outcome)
  : list str :=
  let requests := filter nonblank lines in
  let exchanges := combine requests (map downstream (seq 0 (List.length requests))) in
  flat_map (fun x => relayed (snd x)) exchanges.

(** The exchanges of an uninterrupted run that starts after [n] requests:
    every non-blank line with the outcome of its request. *)
Definition exchanges (lines : list str) (downstream : nat -> outcome) (n : nat)
  : list (str * outcome) :=
  combine (filter nonblank lines)
          (map downstream (seq n (List.length (filter nonblank lines)))).

(** A diagnostic as [log] writes it: the tag, a message, a newline. *)
Definition tagged (s : str) : Prop := exists m, s = LOG_TAG ++ m ++ nl.

(** The request is the one the script is configured to send. *)
Definition to_endpoint (rq : request) : Prop :=
  method rq = POST /\
  url rq = HTTP_SERVER_URL /\
  headers rq = [(lit "Content-Type", lit "application/json")] /\
  timeout rq = 30%Z.

(** Text that is not empty and neither starts nor ends with whitespace. *)
Definition trimmed (s : str) : bool :=
  match s with
  | [] => false
  | c :: _ => negb (isspace c) && negb (isspace (last s c))
  end.

(** Writes and flushes come in pairs: every write to a stream is followed at
    once by a flush of that stream, and nothing is flushed otherwise. *)
Fixpoint flushed (t : world) : bool :=
  match t with
  | [] => true
  | StdoutWrite _ :: StdoutFlush :: t' => flushed t'
  | StderrWrite _ :: StderrFlush :: t' => flushed t'
  | Http _ _ :: t' => flushed t'
  | _ => false
  end.


(** *** Sample downstream services and inputs *)

Definition pong : response := mkResponse 200 (json "{'result':'pong'}").
Definition oops : response := mkResponse 500 (lit "error").
Definition always (o : outcome) : nat -> outcome := fun _ => o.
Definition refused : exn :=
  RequestException (lit "Connection refused").
Definition unencodable : exn :=
  OtherException (lit "UnicodeEncodeError").

(** Answers 200, then 500, then refuses the connection, then 200 again. *)
Definition flaky (n : nat) : outcome :=
  match n with
  | 0 => Returns pong
  | 1 => Returns oops
  | 2 => Raises refused
  | _ => Returns pong
  end.

(** As [flaky] for the first three requests, different afterwards. *)
Definition flaky' (n : nat) : outcome :=
  match n with
  | 0 => Returns pong
  | 1 => Returns oops
  | 2 => Raises refused
  | _ => Returns oops
  end.

Definition ping : str := json "{'id':1,'method':'ping'}".

(* ================================================================= *)
(** ** Text: [strip] and [contains] *)

Lemma lstrip_blank (s : str) : lstrip s = [] <-> blank s = true.
Proof.
  induction s as [|c s IH]; simpl.
  - split; reflexivity.
  - destruct (isspace c); simpl.
    + exact IH.
    + split; discriminate.
Qed.

Lemma lstrip_head (s : str) (c : char) (r : str) :
  lstrip s = c :: r -> isspace c = false.
Proof.
  induction s as [|a s IH]; simpl; [discriminate|].
  destruct (isspace a) eqn:E; [exact IH|].
  intros H; injection H as -> _. exact E.
Qed.

Lemma blank_rev (s : str) : blank (rev s) = blank s.
Proof.
  unfold blank. induction s as [|c s IH]; simpl; [reflexivity|].
  rewrite forallb_app, IH. simpl. rewrite andb_true_r. apply andb_comm.
Qed.

Lemma blank_lstrip (s : str) : blank (lstrip s) = blank s.
Proof.
  induction s as [|c s IH]; simpl; [reflexivity|].
  destruct (isspace c) eqn:E; simpl; [exact IH|].
  rewrite E. reflexivity.
Qed.

Lemma rev_nil_iff {A} (l : list A) : rev l = [] <-> l = [].
Proof.
  split; intros H.
  - rewrite <- (rev_involutive l), H. reflexivity.
  - subst. reflexivity.
Qed.

(** The script's test [not line.strip()] is the specification's "blank or
    whitespace-only". *)
Lemma strip_blank (s : str) : strip s = [] <-> blank s = true.
Proof.
  unfold strip, rstrip.
  etransitivity; [apply rev_nil_iff|].
  etransitivity; [apply lstrip_blank|].
  rewrite blank_rev, blank_lstrip. reflexivity.
Qed.

Lemma strip_nonblank (s : str) : blank s = false -> strip s <> [].
Proof.
  intros H E. apply strip_blank in E. congruence.
Qed.

Lemma startswith_app (x b : str) : startswith (x ++ b) x = true.
Proof.
  induction x as [|c x IH]; simpl; [destruct b; reflexivity|].
  rewrite N.eqb_refl. exact IH.
Qed.

(** Text that has [x] somewhere inside contains it. *)
Lemma contains_app (a x b : str) : contains (a ++ x ++ b) x = true.
Proof.
  induction a as [|c a IH]; simpl.
  - destruct x as [|c x]; simpl; [destruct b; reflexivity|].
    rewrite N.eqb_refl, startswith_app. reflexivity.
  - rewrite IH. apply orb_true_r.
Qed.

(* ================================================================= *)
(** ** Traces: the projections are homomorphisms *)

Lemma stdout_of_app (a b : world) : stdout_of (a ++ b) = stdout_of a ++ stdout_of b.
Proof. apply flat_map_app. Qed.

Lemma stderr_of_app (a b : world) : stderr_of (a ++ b) = stderr_of a ++ stderr_of b.
Proof. apply flat_map_app. Qed.

Lemma requests_of_app (a b : world) :
  requests_of (a ++ b) = requests_of a ++ requests_of b.
Proof. apply flat_map_app. Qed.

Lemma outcomes_of_app (a b : world) :
  outcomes_of (a ++ b) = outcomes_of a ++ outcomes_of b.
Proof. apply flat_map_app. Qed.

Lemma sent_app (a b : world) : sent (a ++ b) = sent a + sent b.
Proof. unfold sent. rewrite requests_of_app. apply length_app. Qed.

Lemma stdout_of_log (m : str) : stdout_of (log_events m) = [].
Proof. reflexivity. Qed.

Lemma requests_of_log (m : str) : requests_of (log_events m) = [].
Proof. reflexivity. Qed.

Lemma outcomes_of_log (m : str) : outcomes_of (log_events m) = [].
Proof. reflexivity. Qed.

Lemma stderr_of_log (m : str) : stderr_of (log_events m) = [LOG_TAG ++ m ++ nl].
Proof. reflexivity. Qed.

Create Rewrite HintDb proj.
#[local] Hint Rewrite stdout_of_app stderr_of_app requests_of_app outcomes_of_app
  stdout_of_log stderr_of_log requests_of_log outcomes_of_log
  app_nil_r app_nil_l : proj.

(* ================================================================= *)
(** ** One call of [log], one iteration of the loop *)

Ltac run :=
  unfold loop_body, log, stderr_write, stderr_flush, stdout_write, stdout_flush,
    requests_post, try_except, bind, emit, ret, raise.

Lemma log_run (m : str) (w : world) : log m w = (Val tt, w ++ log_events m).
Proof.
  run. unfold log_events. rewrite <- app_assoc. reflexivity.
Qed.

(** [log] leaves standard output and the network alone. *)
Lemma log_only_stderr (m : str) (w : world) :
  stdout_of (snd (log m w)) = stdout_of w /\
  requests_of (snd (log m w)) = requests_of w.
Proof.
  rewrite log_run. simpl. autorewrite with proj. split; reflexivity.
Qed.

(** The events of one iteration, case by case. *)
Lemma line_events_blank (line : str) (o : outcome) :
  blank line = true -> line_events line o = [] /\ line_result line o = Val tt.
Proof.
  intros H. apply strip_blank in H.
  unfold line_events, line_result, loop_body. rewrite H. split; reflexivity.
Qed.

Lemma line_events_nonblank (line : str) (o : outcome) :
  blank line = false ->
  line_events line o =
    log_events (msg_received (strip line)) ++ [Http (post_of (strip line)) o] ++
    match o with
    | Returns r =>
      if (status_code r =? 200)%Z then [StdoutWrite (text r ++ nl); StdoutFlush]
      else log_events (msg_server_error r)
    | Raises (RequestException detail) => log_events (msg_connection_error detail)
    | Raises KeyboardInterrupt => []
    | Raises (OtherException _) => []
    end.
Proof.
  intros H. apply strip_nonblank in H.
  unfold line_events, loop_body.
  destruct (strip line) as [|c p] eqn:E; [congruence|].
  run. destruct o as [r|[detail| |x]]; [destruct (status_code r =? 200)%Z|..];
    reflexivity.
Qed.

Lemma line_result_nonblank (line : str) (o : outcome) :
  blank line = false ->
  line_result line o =
    match o with
    | Raises KeyboardInterrupt => Exc KeyboardInterrupt
    | Raises (OtherException x) => Exc (OtherException x)
    | _ => Val tt
    end.
Proof.
  intros H. apply strip_nonblank in H.
  unfold line_result, loop_body.
  destruct (strip line) as [|c p] eqn:E; [congruence|].
  run. destruct o as [r|[detail| |x]]; [destruct (status_code r =? 200)%Z|..];
    reflexivity.
Qed.

(** An iteration only appends to the trace, and what it appends and how it
    ends depend on the trace only through the outcome of the next request. *)
Lemma loop_body_frame (d : nat -> outcome) (line : str) (w : world) :
  loop_body d line w =
    (line_result line (d (sent w)), w ++ line_events line (d (sent w))).
Proof.
  unfold line_events, line_result, loop_body.
  destruct (strip line) as [|c p] eqn:E.
  - unfold ret. simpl. rewrite app_nil_r. reflexivity.
  - run. simpl sent.
    destruct (d (sent (((w ++ _) ++ _)))) as [r|[detail| |x]] eqn:Ed.
    all: rewrite !sent_app in Ed; simpl in Ed; rewrite !Nat.add_0_r in Ed; rewrite Ed.
    1: destruct (status_code r =? 200)%Z.
    all: simpl; rewrite <- ?app_assoc; reflexivity.
Qed.

(** The loop goes on to the next line exactly when the iteration returns. *)
Lemma for_line_in_step (body : str -> M unit) (line : str) (rest : list read)
      (w w' : world) :
  body line w = (Val tt, w') ->
  for_line_in (Line line :: rest) body w = for_line_in rest body w'.
Proof.
  intros H. simpl. unfold bind. rewrite H. reflexivity.
Qed.

Lemma for_line_in_skip (body : str -> M unit) (line : str) (pre post : list read) :
  (forall w, body line w = (Val tt, w)) ->
  forall w, for_line_in (pre ++ Line line :: post) body w
            = for_line_in (pre ++ post) body w.
Proof.
  intros H. induction pre as [|[l| |x] pre IH]; intros w; simpl.
  - unfold bind. rewrite H. reflexivity.
  - unfold bind. destruct (body l w) as [[[]|e] w1]; [apply IH|reflexivity].
  - reflexivity.
  - reflexivity.
Qed.

(* ================================================================= *)
(** ** The claims about one input line *)

(** C1, as amended: for every non-blank input line [L], one iteration of the
    loop issues exactly one HTTP POST, and its body is [L.strip()], the line
    without its leading and trailing whitespace (the line terminator
    included), whatever the downstream then answers. *)
Theorem C1_one_post_with_trimmed_body
        (d : nat -> outcome) (line : str) (w : world) :
  blank line = false ->
  requests_of (snd (loop_body d line w))
  = requests_of w ++ [mkRequest POST HTTP_SERVER_URL (strip line)
                                [(lit "Content-Type", lit "application/json")] 30].
Proof.
  intros H. rewrite loop_body_frame. simpl.
  rewrite (line_events_nonblank _ _ H). autorewrite with proj. simpl.
  destruct (d (sent w)) as [r|[detail| |x]]; [destruct (status_code r =? 200)%Z|..];
    reflexivity.
Qed.

Lemma C1_one_post_with_trimmed_body_witness :
  requests_of (snd (loop_body flaky (lit "  ping  " ++ nl) []))
  = requests_of [] ++ [mkRequest POST HTTP_SERVER_URL (strip (lit "  ping  " ++ nl))
                                 [(lit "Content-Type", lit "application/json")] 30].
Proof.
  apply (C1_one_post_with_trimmed_body flaky (lit "  ping  " ++ nl) []).
  reflexivity.
Defined.

(** C1 as stated fails: the line ["  ping  \n"] is not blank, and the body of
    the one request it causes is ["ping"], which is neither the line as read
    nor the line without its terminator. *)
Lemma C1_body_is_not_the_line :
  blank (lit "  ping  " ++ nl) = false /\
  map data (requests_of (snd (loop_body (always (Returns pong))
                                        (lit "  ping  " ++ nl) [])))
  = [lit "ping"] /\
  lit "ping" <> lit "  ping  " ++ nl /\
  lit "ping" <> lit "  ping  ".
Proof.
  repeat split; try reflexivity; discriminate.
Qed.

(** C2, as amended: when the request of a non-blank line is answered with
    status 200 and body [B], the iteration writes [B] followed by a newline
    to standard output, flushes it, and writes nothing else there; the only
    diagnostic of the iteration is the "Received Request" line, logged before
    the request is sent, and none follows the response. *)
Theorem C2_ok_response_relayed
        (d : nat -> outcome) (line : str) (w : world) (B : str) :
  blank line = false ->
  d (sent w) = Returns (mkResponse 200 B) ->
  loop_body d line w
  = (Val tt,
     w ++ log_events (msg_received (strip line))
       ++ [Http (post_of (strip line)) (Returns (mkResponse 200 B));
           StdoutWrite (B ++ nl); StdoutFlush]) /\
  stdout_of (snd (loop_body d line w)) = stdout_of w ++ [B ++ nl] /\
  stderr_of (snd (loop_body d line w))
  = stderr_of w ++ [LOG_TAG ++ msg_received (strip line) ++ nl].
Proof.
  intros H Hd. rewrite loop_body_frame, Hd.
  rewrite (line_events_nonblank _ _ H), (line_result_nonblank _ _ H). simpl.
  cbn [snd]. autorewrite with proj. cbn [stdout_of stderr_of flat_map app].
  rewrite ?app_nil_r. repeat split.
Qed.

Lemma C2_ok_response_relayed_witness :
  loop_body flaky ping []
  = (Val tt,
     [] ++ log_events (msg_received (strip ping))
        ++ [Http (post_of (strip ping)) (Returns (mkResponse 200 (text pong)));
            StdoutWrite (text pong ++ nl); StdoutFlush]) /\
  stdout_of (snd (loop_body flaky ping [])) = stdout_of [] ++ [text pong ++ nl] /\
  stderr_of (snd (loop_body flaky ping []))
  = stderr_of [] ++ [LOG_TAG ++ msg_received (strip ping) ++ nl].
Proof.
  apply (C2_ok_response_relayed flaky ping [] (text pong)); reflexivity.
Defined.

(** C2 as stated fails: with the downstream answering 200, the iteration for
    the line [ping] does put a diagnostic on standard error. *)
Lemma C2_diagnostic_on_success :
  blank ping = false /\
  always (Returns pong) (sent []) = Returns pong /\
  status_code pong = 200%Z /\
  stderr_of (snd (loop_body (always (Returns pong)) ping []))
  = [LOG_TAG ++ lit "Received Request: " ++ ping ++ lit "..." ++ nl] /\
  stderr_of (snd (loop_body (always (Returns pong)) ping [])) <> [].
Proof.
  repeat split; try reflexivity; discriminate.
Qed.

(** C3, as amended: when the request of a non-blank line is answered with a
    status other than 200, the iteration writes nothing to standard output;
    after the "Received Request" diagnostic that precedes every request it
    emits exactly one more diagnostic, and that one contains the status code
    and the response body. *)
Theorem C3_error_status_logged
        (d : nat -> outcome) (line : str) (w : world) (r : response) :
  blank line = false ->
  d (sent w) = Returns r ->
  status_code r <> 200%Z ->
  loop_body d line w
  = (Val tt,
     w ++ log_events (msg_received (strip line))
       ++ [Http (post_of (strip line)) (Returns r)]
       ++ log_events (msg_server_error r)) /\
  stdout_of (snd (loop_body d line w)) = stdout_of w /\
  stderr_of (snd (loop_body d line w))
  = stderr_of w ++ [LOG_TAG ++ msg_received (strip line) ++ nl;
                    LOG_TAG ++ msg_server_error r ++ nl] /\
  contains (LOG_TAG ++ msg_server_error r ++ nl) (str_of_int (status_code r)) = true /\
  contains (LOG_TAG ++ msg_server_error r ++ nl) (text r) = true.
Proof.
  intros H Hd Hs. apply Z.eqb_neq in Hs.
  assert (E : loop_body d line w
              = (Val tt,
                 w ++ log_events (msg_received (strip line))
                   ++ [Http (post_of (strip line)) (Returns r)]
                   ++ log_events (msg_server_error r))).
  { rewrite loop_body_frame, Hd.
    rewrite (line_events_nonblank _ _ H), (line_result_nonblank _ _ H).
    rewrite Hs. reflexivity. }
  split; [exact E|]. rewrite E. cbn [snd].
  split; [|split; [|split]].
  - autorewrite with proj. cbn [stdout_of flat_map app]. rewrite ?app_nil_r. reflexivity.
  - autorewrite with proj. cbn [stderr_of flat_map app]. reflexivity.
  - unfold msg_server_error.
    replace (LOG_TAG ++ (lit "Server Error: " ++ str_of_int (status_code r)
                         ++ lit " - " ++ text r) ++ nl)
      with ((LOG_TAG ++ lit "Server Error: ") ++ str_of_int (status_code r)
            ++ (lit " - " ++ text r ++ nl))
      by (rewrite <- !app_assoc; reflexivity).
    apply contains_app.
  - unfold msg_server_error.
    replace (LOG_TAG ++ (lit "Server Error: " ++ str_of_int (status_code r)
                         ++ lit " - " ++ text r) ++ nl)
      with ((LOG_TAG ++ lit "Server Error: " ++ str_of_int (status_code r)
             ++ lit " - ") ++ text r ++ nl)
      by (rewrite <- !app_assoc; reflexivity).
    apply contains_app.
Qed.

Lemma C3_error_status_logged_witness :
  loop_body (always (Returns oops)) (json "{'id':2}" ++ nl) []
  = (Val tt,
     [] ++ log_events (msg_received (strip (json "{'id':2}" ++ nl)))
        ++ [Http (post_of (strip (json "{'id':2}" ++ nl))) (Returns oops)]
        ++ log_events (msg_server_error oops)) /\
  stdout_of (snd (loop_body (always (Returns oops)) (json "{'id':2}" ++ nl) []))
  = stdout_of [] /\
  stderr_of (snd (loop_body (always (Returns oops)) (json "{'id':2}" ++ nl) []))
  = stderr_of [] ++ [LOG_TAG ++ msg_received (strip (json "{'id':2}" ++ nl)) ++ nl;
                     LOG_TAG ++ msg_server_error oops ++ nl] /\
  contains (LOG_TAG ++ msg_server_error oops ++ nl) (str_of_int (status_code oops)) = true /\
  contains (LOG_TAG ++ msg_server_error oops ++ nl) (text oops) = true.
Proof.
  apply (C3_error_status_logged (always (Returns oops)) (json "{'id':2}" ++ nl) [] oops).
  - reflexivity.
  - reflexivity.
  - discriminate.
Defined.

(** C3 as stated fails: with the downstream answering 500, the iteration
    emits two diagnostics, not one. *)
Lemma C3_two_diagnostics_on_error_status :
  blank (json "{'id':2}" ++ nl) = false /\
  always (Returns oops) (sent []) = Returns oops /\
  status_code oops = 500%Z /\
  stderr_of (snd (loop_body (always (Returns oops)) (json "{'id':2}" ++ nl) []))
  = [lit "BRIDGE-LOG: Received Request: " ++ json "{'id':2}" ++ lit "..." ++ nl;
     lit "BRIDGE-LOG: Server Error: 500 - error" ++ nl] /\
  List.length (stderr_of (snd (loop_body (always (Returns oops))
                                         (json "{'id':2}" ++ nl) []))) = 2.
Proof.
  repeat split; reflexivity.
Qed.

(** C4, as amended: when the request of a non-blank line raises a
    [RequestException], the iteration writes nothing to standard output;
    after the "Received Request" diagnostic that precedes every request it
    emits exactly one more diagnostic, which carries the text of the
    exception; the iteration returns normally and the loop goes on with the
    next input line. *)
Theorem C4_transport_failure_logged
        (d : nat -> outcome) (line : str) (w : world) (detail : str)
        (rest : list read) :
  blank line = false ->
  d (sent w) = Raises (RequestException detail) ->
  let w' := w ++ log_events (msg_received (strip line))
              ++ [Http (post_of (strip line)) (Raises (RequestException detail))]
              ++ log_events (lit "HTTP Connection Error: " ++ detail) in
  loop_body d line w = (Val tt, w') /\
  stdout_of w' = stdout_of w /\
  stderr_of w'
  = stderr_of w ++ [LOG_TAG ++ msg_received (strip line) ++ nl;
                    LOG_TAG ++ lit "HTTP Connection Error: " ++ detail ++ nl] /\
  for_line_in (Line line :: rest) (loop_body d) w
  = for_line_in rest (loop_body d) w'.
Proof.
  intros H Hd w'.
  assert (E : loop_body d line w = (Val tt, w')).
  { rewrite loop_body_frame, Hd.
    rewrite (line_events_nonblank _ _ H), (line_result_nonblank _ _ H).
    reflexivity. }
  split; [exact E|].
  split; [|split].
  - subst w'. autorewrite with proj. cbn [stdout_of flat_map app].
    rewrite ?app_nil_r. reflexivity.
  - subst w'. autorewrite with proj. cbn [stderr_of flat_map app].
    rewrite <- !app_assoc. reflexivity.
  - apply for_line_in_step. exact E.
Qed.

Lemma C4_transport_failure_logged_witness :
  let w' := [] ++ log_events (msg_received (strip ping))
              ++ [Http (post_of (strip ping)) (Raises refused)]
              ++ log_events (lit "HTTP Connection Error: " ++ lit "Connection refused") in
  loop_body (always (Raises refused)) ping [] = (Val tt, w') /\
  stdout_of w' = stdout_of [] /\
  stderr_of w'
  = stderr_of [] ++ [LOG_TAG ++ msg_received (strip ping) ++ nl;
                     LOG_TAG ++ lit "HTTP Connection Error: "
                       ++ lit "Connection refused" ++ nl] /\
  for_line_in (Line ping :: [Line ping]) (loop_body (always (Raises refused))) []
  = for_line_in [Line ping] (loop_body (always (Raises refused))) w'.
Proof.
  apply (C4_transport_failure_logged (always (Raises refused)) ping []
                                     (lit "Connection refused") [Line ping]);
    reflexivity.
Defined.

(** C4 as stated fails: with the connection refused, the iteration emits two
    diagnostics, not one. *)
Lemma C4_two_diagnostics_on_transport_failure :
  blank ping = false /\
  always (Raises refused) (sent []) = Raises (RequestException (lit "Connection refused")) /\
  stderr_of (snd (loop_body (always (Raises refused)) ping []))
  = [lit "BRIDGE-LOG: Received Request: " ++ ping ++ lit "..." ++ nl;
     lit "BRIDGE-LOG: HTTP Connection Error: Connection refused" ++ nl] /\
  List.length (stderr_of (snd (loop_body (always (Raises refused)) ping []))) = 2.
Proof.
  repeat split; reflexivity.
Qed.

(** C5: for an input line that is empty or whitespace only, the iteration
    changes nothing (no request, no output, no diagnostic) and returns; a run
    over an input with such a line is the run over the input without it. *)
Theorem C5_blank_line_skipped (d : nat -> outcome) (line : str) :
  blank line = true ->
  (forall w, loop_body d line w = (Val tt, w)) /\
  (forall pre post w,
      main d (pre ++ Line line :: post) w = main d (pre ++ post) w).
Proof.
  intros H.
  assert (E : forall w, loop_body d line w = (Val tt, w)).
  { intros w. rewrite loop_body_frame.
    destruct (line_events_blank line (d (sent w)) H) as [-> ->].
    rewrite app_nil_r. reflexivity. }
  split; [exact E|].
  intros pre post w. unfold main, bind, try_except.
  destruct (log _ w) as [[[]|e] w1]; [|reflexivity].
  rewrite (for_line_in_skip _ _ _ _ E). reflexivity.
Qed.

Lemma C5_blank_line_skipped_witness :
  (forall w, loop_body flaky (lit "   " ++ nl) w = (Val tt, w)) /\
  (forall pre post w,
      main flaky (pre ++ Line (lit "   " ++ nl) :: post) w
      = main flaky (pre ++ post) w).
Proof.
  apply (C5_blank_line_skipped flaky (lit "   " ++ nl)). reflexivity.
Defined.

(* ================================================================= *)
(** ** What one iteration contributes to each stream *)

Lemma line_events_requests (line : str) (o : outcome) :
  blank line = false -> requests_of (line_events line o) = [post_of (strip line)].
Proof.
  intros H. rewrite (line_events_nonblank _ _ H). autorewrite with proj.
  destruct o as [r|[detail| |x]]; [destruct (status_code r =? 200)%Z|..];
    reflexivity.
Qed.

Lemma line_events_outcomes (line : str) (o : outcome) :
  blank line = false -> outcomes_of (line_events line o) = [o].
Proof.
  intros H. rewrite (line_events_nonblank _ _ H). autorewrite with proj.
  destruct o as [r|[detail| |x]]; [destruct (status_code r =? 200)%Z|..];
    reflexivity.
Qed.

Lemma line_events_stdout (line : str) (o : outcome) :
  stdout_of (line_events line o) = if blank line then [] else relayed o.
Proof.
  destruct (blank line) eqn:H.
  - destruct (line_events_blank line o H) as [-> _]. reflexivity.
  - rewrite (line_events_nonblank _ _ H). autorewrite with proj.
    destruct o as [r|[detail| |x]]; [simpl; destruct (status_code r =? 200)%Z|..];
      reflexivity.
Qed.

Lemma line_events_stdout_outcomes (line : str) (o : outcome) :
  stdout_of (line_events line o) = flat_map relayed (outcomes_of (line_events line o)).
Proof.
  rewrite line_events_stdout. destruct (blank line) eqn:H.
  - destruct (line_events_blank line o H) as [-> _]. reflexivity.
  - rewrite (line_events_outcomes _ _ H). simpl. rewrite app_nil_r. reflexivity.
Qed.

Lemma line_events_stderr (line : str) (o : outcome) :
  Forall tagged (stderr_of (line_events line o)).
Proof.
  destruct (blank line) eqn:H.
  - destruct (line_events_blank line o H) as [-> _]. constructor.
  - rewrite (line_events_nonblank _ _ H). autorewrite with proj.
    apply Forall_app. split; [repeat constructor; eexists; reflexivity|].
    destruct o as [r|[detail| |x]]; [destruct (status_code r =? 200)%Z|..];
      cbn [stderr_of flat_map app]; autorewrite with proj;
      repeat constructor; eexists; reflexivity.
Qed.

Lemma line_events_to_endpoint (line : str) (o : outcome) :
  Forall to_endpoint (requests_of (line_events line o)).
Proof.
  destruct (blank line) eqn:H.
  - destruct (line_events_blank line o H) as [-> _]. constructor.
  - rewrite (line_events_requests _ _ H). repeat constructor.
Qed.

Lemma line_events_sent (line : str) (o : outcome) :
  sent (line_events line o) = if blank line then 0 else 1.
Proof.
  unfold sent. destruct (blank line) eqn:H.
  - destruct (line_events_blank line o H) as [-> _]. reflexivity.
  - rewrite (line_events_requests _ _ H). reflexivity.
Qed.

(* ================================================================= *)
(** ** The loop and [main] as a whole *)

(** [main] is the start-up diagnostic, the loop, and the shutdown diagnostic
    when the loop was interrupted. *)
Lemma main_run (d : nat -> outcome) (stdin : list read) (w : world) :
  main d stdin w =
    match for_line_in stdin (loop_body d) (w ++ log_events msg_starting) with
    | (Val a, w2) => (Val a, w2)
    | (Exc KeyboardInterrupt, w2) => (Val tt, w2 ++ log_events msg_shutdown)
    | (Exc (RequestException x), w2) => (Exc (RequestException x), w2)
    | (Exc (OtherException x), w2) => (Exc (OtherException x), w2)
    end.
Proof.
  unfold main, bind, try_except. rewrite log_run. fold msg_starting.
  destruct (for_line_in stdin (loop_body d) (w ++ log_events msg_starting))
    as [[a|[x| |x]] w2]; try reflexivity.
  apply log_run.
Qed.

(** Whatever holds of the nothing, of each iteration's events and of
    concatenations holds of what the loop appends. *)
Lemma for_line_in_appends (d : nat -> outcome) (Q : list event -> Prop) :
  Q [] ->
  (forall a b, Q a -> Q b -> Q (a ++ b)) ->
  (forall line n, Q (line_events line (d n))) ->
  forall stdin w, exists ev,
      snd (for_line_in stdin (loop_body d) w) = w ++ ev /\ Q ev.
Proof.
  intros Qnil Qapp Qline. induction stdin as [|[line| |x] rest IH]; intros w.
  - exists []. simpl. rewrite app_nil_r. auto.
  - simpl. unfold bind. rewrite loop_body_frame.
    destruct (line_result line (d (sent w))) as [[]|e].
    + destruct (IH (w ++ line_events line (d (sent w)))) as [ev [E HQ]].
      exists (line_events line (d (sent w)) ++ ev).
      rewrite E, app_assoc. auto.
    + exists (line_events line (d (sent w))). split; [reflexivity|apply Qline].
  - exists []. simpl. rewrite app_nil_r. auto.
  - exists []. simpl. rewrite app_nil_r. auto.
Qed.

Lemma main_appends (d : nat -> outcome) (Q : list event -> Prop) :
  Q [] ->
  (forall a b, Q a -> Q b -> Q (a ++ b)) ->
  (forall m, Q (log_events m)) ->
  (forall line n, Q (line_events line (d n))) ->
  forall stdin w, exists ev, snd (main d stdin w) = w ++ ev /\ Q ev.
Proof.
  intros Qnil Qapp Qlog Qline stdin w. rewrite main_run.
  destruct (for_line_in_appends d Q Qnil Qapp Qline stdin
                                (w ++ log_events msg_starting)) as [ev [E HQ]].
  destruct (for_line_in stdin (loop_body d) (w ++ log_events msg_starting))
    as [[a|[x| |x]] w2]; simpl in E; subst w2; simpl.
  - exists (log_events msg_starting ++ ev). rewrite app_assoc. auto.
  - exists (log_events msg_starting ++ ev). rewrite app_assoc. auto.
  - exists (log_events msg_starting ++ ev ++ log_events msg_shutdown).
    rewrite !app_assoc. rewrite <- (app_assoc (log_events msg_starting)). auto.
  - exists (log_events msg_starting ++ ev). rewrite app_assoc. auto.
Qed.

Lemma for_line_in_sent (d : nat -> outcome) (stdin : list read) (w : world) :
  sent w <= sent (snd (for_line_in stdin (loop_body d) w)).
Proof.
  destruct (for_line_in_appends d (fun _ => True) I (fun _ _ _ _ => I)
                                (fun _ _ => I) stdin w) as [ev [E _]].
  rewrite E, sent_app. lia.
Qed.

(* ================================================================= *)
(** ** Uninterrupted runs *)

Lemma exchanges_blank (l : str) (lines : list str) (d : nat -> outcome) (n : nat) :
  blank l = true -> exchanges (l :: lines) d n = exchanges lines d n.
Proof.
  intros H. unfold exchanges, nonblank. simpl. rewrite H. reflexivity.
Qed.

Lemma exchanges_nonblank (l : str) (lines : list str) (d : nat -> outcome) (n : nat) :
  blank l = false -> exchanges (l :: lines) d n = (l, d n) :: exchanges lines d (S n).
Proof.
  intros H. unfold exchanges, nonblank. simpl. rewrite H. reflexivity.
Qed.

Lemma filter_nonblank_cons (l : str) (lines : list str) :
  filter nonblank (l :: lines)
  = if blank l then filter nonblank lines else l :: filter nonblank lines.
Proof.
  unfold nonblank. simpl. destruct (blank l); reflexivity.
Qed.

Lemma line_result_returns (line : str) (o : outcome) :
  interrupts o = false -> uncaught o = false -> line_result line o = Val tt.
Proof.
  intros Hi Hu. destruct (blank line) eqn:H.
  - apply line_events_blank. exact H.
  - rewrite (line_result_nonblank _ _ H).
    destruct o as [r|[detail| |x]]; try reflexivity; discriminate.
Qed.

(** Without interrupts and uncaught exceptions the loop runs to end-of-file,
    and its trace is the events of the exchanges, one after the other in
    input order. *)
Lemma for_line_in_lines (d : nat -> outcome) (lines : list str) :
  (forall n, interrupts (d n) = false) ->
  (forall n, uncaught (d n) = false) ->
  forall w,
    for_line_in (map Line lines) (loop_body d) w
    = (Val tt,
       w ++ flat_map (fun x => line_events (fst x) (snd x))
                     (exchanges lines d (sent w))).
Proof.
  intros Hd Hu. induction lines as [|l lines IH]; intros w.
  - simpl. unfold ret. rewrite app_nil_r. reflexivity.
  - cbn [map for_line_in]. unfold bind. rewrite loop_body_frame.
    destruct (blank l) eqn:H.
    + destruct (line_events_blank l (d (sent w)) H) as [-> ->].
      rewrite app_nil_r, IH, (exchanges_blank _ _ _ _ H). reflexivity.
    + rewrite (line_result_returns _ _ (Hd _) (Hu _)), IH.
      rewrite (exchanges_nonblank _ _ _ _ H), sent_app, line_events_sent, H.
      cbn [flat_map fst snd]. rewrite Nat.add_1_r, app_assoc. reflexivity.
Qed.

Lemma exchanges_requests (d : nat -> outcome) (lines : list str) (n : nat) :
  map data (requests_of (flat_map (fun x => line_events (fst x) (snd x))
                                  (exchanges lines d n)))
  = map strip (filter nonblank lines).
Proof.
  revert n. induction lines as [|l lines IH]; intros n; [reflexivity|].
  rewrite filter_nonblank_cons. destruct (blank l) eqn:H.
  - rewrite (exchanges_blank _ _ _ _ H). apply IH.
  - rewrite (exchanges_nonblank _ _ _ _ H). cbn [flat_map fst snd].
    rewrite requests_of_app, (line_events_requests _ _ H), map_app, IH.
    reflexivity.
Qed.

Lemma exchanges_outcomes (d : nat -> outcome) (lines : list str) (n : nat) :
  outcomes_of (flat_map (fun x => line_events (fst x) (snd x))
                        (exchanges lines d n))
  = map d (seq n (List.length (filter nonblank lines))).
Proof.
  revert n. induction lines as [|l lines IH]; intros n; [reflexivity|].
  rewrite filter_nonblank_cons. destruct (blank l) eqn:H.
  - rewrite (exchanges_blank _ _ _ _ H). apply IH.
  - rewrite (exchanges_nonblank _ _ _ _ H). cbn [flat_map fst snd].
    rewrite outcomes_of_app, (line_events_outcomes _ _ H), IH. reflexivity.
Qed.

Lemma exchanges_stdout (d : nat -> outcome) (lines : list str) (n : nat) :
  stdout_of (flat_map (fun x => line_events (fst x) (snd x))
                      (exchanges lines d n))
  = flat_map (fun x => relayed (snd x)) (exchanges lines d n).
Proof.
  revert n. induction lines as [|l lines IH]; intros n; [reflexivity|].
  destruct (blank l) eqn:H.
  - rewrite (exchanges_blank _ _ _ _ H). apply IH.
  - rewrite (exchanges_nonblank _ _ _ _ H). cbn [flat_map fst snd].
    rewrite stdout_of_app, line_events_stdout, H, IH. reflexivity.
Qed.

(** C6: in a run over a finite input that neither an interrupt nor an
    exception the script does not catch cuts short, the
    trace is the start-up diagnostic followed by the events of the exchanges,
    one non-blank line after the other in input order, the [i]-th of them
    answered by the [i]-th outcome: every request with what follows from it
    is over before the next one is issued.  The writes to standard output
    are the bodies of the 200 responses in that order, each with its
    newline, as the specification has them, and no line causes more than
    one. *)
Theorem C6_output_in_input_order (d : nat -> outcome) (lines : list str) :
  (forall n, interrupts (d n) = false) ->
  (forall n, uncaught (d n) = false) ->
  let requests := filter nonblank lines in
  let outcomes := map d (seq 0 (List.length requests)) in
  let t := snd (main d (map Line lines) []) in
  fst (main d (map Line lines) []) = Val tt /\
  t = log_events msg_starting
      ++ flat_map (fun x => line_events (fst x) (snd x)) (combine requests outcomes) /\
  map data (requests_of t) = map strip requests /\
  outcomes_of t = outcomes /\
  stdout_of t = spec_output lines d /\
  (forall l o, List.length (stdout_of (line_events l o)) <= 1).
Proof.
  intros Hd Hu requests outcomes t.
  assert (E : main d (map Line lines) []
              = (Val tt, log_events msg_starting
                         ++ flat_map (fun x => line_events (fst x) (snd x))
                                     (exchanges lines d 0))).
  { rewrite main_run, (for_line_in_lines _ _ Hd Hu). reflexivity. }
  subst t. rewrite E. cbn [fst snd].
  split; [reflexivity|]. split; [reflexivity|].
  rewrite requests_of_app, outcomes_of_app, stdout_of_app.
  rewrite requests_of_log, outcomes_of_log, stdout_of_log. cbn [app].
  split; [apply exchanges_requests|].
  split; [apply exchanges_outcomes|].
  split; [apply exchanges_stdout|].
  intros l o. rewrite line_events_stdout.
  destruct (blank l); [simpl; lia|].
  destruct o as [r|e]; simpl; [destruct (status_code r =? 200)%Z|]; simpl; lia.
Qed.

Lemma C6_output_in_input_order_witness :
  let lines := [ping ++ nl; nl; json "{'id':2}" ++ nl; lit "  x  " ++ nl; ping] in
  let requests := filter nonblank lines in
  let outcomes := map flaky (seq 0 (List.length requests)) in
  let t := snd (main flaky (map Line lines) []) in
  fst (main flaky (map Line lines) []) = Val tt /\
  t = log_events msg_starting
      ++ flat_map (fun x => line_events (fst x) (snd x)) (combine requests outcomes) /\
  map data (requests_of t) = map strip requests /\
  outcomes_of t = outcomes /\
  stdout_of t = spec_output lines flaky /\
  (forall l o, List.length (stdout_of (line_events l o)) <= 1).
Proof.
  apply (C6_output_in_input_order
           flaky [ping ++ nl; nl; json "{'id':2}" ++ nl; lit "  x  " ++ nl; ping]).
  - intros [|[|[|n]]]; reflexivity.
  - intros [|[|[|n]]]; reflexivity.
Defined.

(* ================================================================= *)
(** ** Every run, interrupted or not *)

(** C7: in every run, each write to standard error is a diagnostic of [log],
    the fixed tag ["BRIDGE-LOG: "] followed by a message and a newline;
    [log] itself writes just that to standard error, flushes it, and never
    touches standard output; and standard output holds exactly the bodies of
    the 200 responses received, each with its newline, and nothing else. *)
Theorem C7_diagnostics_apart_from_output (d : nat -> outcome) (stdin : list read) :
  let t := snd (main d stdin []) in
  Forall (fun s => exists m, s = lit "BRIDGE-LOG: " ++ m ++ nl) (stderr_of t) /\
  (forall m w, stdout_of (snd (log m w)) = stdout_of w) /\
  stdout_of t = flat_map relayed (outcomes_of t) /\
  (forall m w,
      log m w = (Val tt, w ++ [StderrWrite (lit "BRIDGE-LOG: " ++ m ++ nl);
                               StderrFlush])).
Proof.
  intros t. split; [|split; [|split; [|exact log_run]]].
  - destruct (main_appends d (fun ev => Forall tagged (stderr_of ev)))
      with (stdin := stdin) (w := @nil event) as [ev [E H]].
    + constructor.
    + intros a b Ha Hb. rewrite stderr_of_app. apply Forall_app. auto.
    + intros m. rewrite stderr_of_log. repeat constructor. eexists. reflexivity.
    + intros line n. apply line_events_stderr.
    + subst t. rewrite E. exact H.
  - intros m w. apply log_only_stderr.
  - destruct (main_appends d (fun ev => stdout_of ev = flat_map relayed (outcomes_of ev)))
      with (stdin := stdin) (w := @nil event) as [ev [E H]].
    + reflexivity.
    + intros a b Ha Hb.
      rewrite stdout_of_app, outcomes_of_app, flat_map_app, Ha, Hb. reflexivity.
    + intros m. reflexivity.
    + intros line n. apply line_events_stdout_outcomes.
    + subst t. rewrite E. exact H.
Qed.

(** C8: in every run, each request issued is a POST to [HTTP_SERVER_URL], the
    one constant of the script, with the single header
    [Content-Type: application/json] and a timeout of 30 seconds. *)
Theorem C8_fixed_endpoint (d : nat -> outcome) (stdin : list read) :
  Forall (fun rq =>
            method rq = POST /\
            url rq = HTTP_SERVER_URL /\
            headers rq = [(lit "Content-Type", lit "application/json")] /\
            timeout rq = 30%Z)
         (requests_of (snd (main d stdin []))) /\
  HTTP_SERVER_URL = lit "http://localhost:9000/mcp/v1/chinook/".
Proof.
  split; [|reflexivity].
  destruct (main_appends d (fun ev => Forall to_endpoint (requests_of ev)))
    with (stdin := stdin) (w := @nil event) as [ev [E H]].
  - constructor.
  - intros a b Ha Hb. rewrite requests_of_app. apply Forall_app. auto.
  - intros m. constructor.
  - intros line n. apply line_events_to_endpoint.
  - rewrite E. exact H.
Qed.






(** An interrupted run: the interrupt arrives while the second read blocks;
    the line behind it is never read, the shutdown diagnostic is the last
    thing logged, and the exit status is 0. *)
Example interrupted_run :
  let stdin := [Line (ping ++ nl); SigInt; Line (ping ++ nl)] in
  exit_code (fst (main flaky stdin [])) = 0%Z /\
  map data (requests_of (snd (main flaky stdin []))) = [ping] /\
  stderr_of (snd (main flaky stdin []))
  = [lit "BRIDGE-LOG: Starting MCP Stdio-to-HTTP Bridge..." ++ nl;
     lit "BRIDGE-LOG: Received Request: " ++ ping ++ lit "..." ++ nl;
     lit "BRIDGE-LOG: Bridge shutting down." ++ nl].
Proof. repeat split; reflexivity. Qed.

(* ================================================================= *)
(** ** Determinism *)

(** The loop reads the downstream only at the requests it issues. *)
Lemma for_line_in_agree (d1 d2 : nat -> outcome) (stdin : list read) :
  forall w,
    (forall n, sent w <= n < sent (snd (for_line_in stdin (loop_body d1) w)) ->
               d1 n = d2 n) ->
    for_line_in stdin (loop_body d1) w = for_line_in stdin (loop_body d2) w.
Proof.
  induction stdin as [|[l| |x] rest IH]; intros w H;
    [reflexivity| |reflexivity|reflexivity].
  cbn [for_line_in] in *. unfold bind in *. rewrite !loop_body_frame in *.
  destruct (blank l) eqn:Hb.
  - destruct (line_events_blank l (d1 (sent w)) Hb) as [E1 E2].
    destruct (line_events_blank l (d2 (sent w)) Hb) as [E3 E4].
    rewrite E1, E2 in H. rewrite E1, E2, E3, E4.
    rewrite app_nil_r in *. apply IH. exact H.
  - assert (Hs : sent (w ++ line_events l (d1 (sent w))) = S (sent w))
      by (rewrite sent_app, line_events_sent, Hb; lia).
    assert (Hd : d1 (sent w) = d2 (sent w)).
    { apply H. split; [lia|].
      destruct (line_result l (d1 (sent w))) as [[]|e]; cbn [snd].
      - pose proof (for_line_in_sent d1 rest (w ++ line_events l (d1 (sent w)))).
        lia.
      - lia. }
    rewrite <- Hd.
    destruct (line_result l (d1 (sent w))) as [[]|e]; [|reflexivity].
    apply IH. intros n Hn. apply H. lia.
Qed.

(** C10: two runs on the same input, against downstream services that give
    the same outcome for every request the first run issues, are the same
    run: same result, same trace, hence the same standard output and the
    same standard error. *)
Theorem C10_deterministic (d1 d2 : nat -> outcome) (stdin : list read) :
  (forall n, n < sent (snd (main d1 stdin [])) -> d1 n = d2 n) ->
  main d1 stdin [] = main d2 stdin [] /\
  stdout_of (snd (main d1 stdin [])) = stdout_of (snd (main d2 stdin [])) /\
  stderr_of (snd (main d1 stdin [])) = stderr_of (snd (main d2 stdin [])).
Proof.
  intros H.
  assert (E : main d1 stdin [] = main d2 stdin []).
  { rewrite !main_run. rewrite main_run in H. cbn [app] in *.
    rewrite <- (for_line_in_agree d1 d2 stdin (log_events msg_starting)).
    - reflexivity.
    - intros n [_ Hn]. apply H.
      destruct (for_line_in stdin (loop_body d1) (log_events msg_starting))
        as [[a|[x| |x]] w2]; cbn [snd] in *; try exact Hn.
      rewrite sent_app. simpl. lia. }
  rewrite E. repeat split.
Qed.

Lemma C10_deterministic_witness :
  let stdin := [Line (ping ++ nl); Line nl; Line (json "{'id':2}" ++ nl); Line ping] in
  flaky 3 <> flaky' 3 /\
  main flaky stdin [] = main flaky' stdin [] /\
  stdout_of (snd (main flaky stdin [])) = stdout_of (snd (main flaky' stdin [])) /\
  stderr_of (snd (main flaky stdin [])) = stderr_of (snd (main flaky' stdin [])).
Proof.
  intros stdin. split; [discriminate|].
  apply (C10_deterministic flaky flaky' stdin).
  intros [|[|[|n]]] Hn; try reflexivity.
  vm_compute in Hn. lia.
Defined.

(* ================================================================= *)
(** ** More on [strip]: what the request body looks like *)

Lemma lstrip_app (a b : str) :
  lstrip (a ++ b) = if blank a then lstrip b else lstrip a ++ b.
Proof.
  induction a as [|c a IH]; simpl; [reflexivity|].
  destruct (isspace c); simpl; [exact IH|reflexivity].
Qed.

Lemma rstrip_app_blank (s b : str) : blank b = true -> rstrip (s ++ b) = rstrip s.
Proof.
  intros H. unfold rstrip. rewrite rev_app_distr, lstrip_app, blank_rev, H.
  reflexivity.
Qed.

Lemma rstrip_cons (c : char) (s : str) :
  isspace c = false -> rstrip (c :: s) = c :: rstrip s.
Proof.
  intros H. unfold rstrip. simpl. rewrite lstrip_app.
  destruct (blank (rev s)) eqn:E.
  - apply lstrip_blank in E. rewrite E. simpl. rewrite H. reflexivity.
  - rewrite rev_app_distr. reflexivity.
Qed.

Lemma strip_surrounded (a s b : str) :
  blank a = true -> blank b = true -> strip (a ++ s ++ b) = strip s.
Proof.
  intros Ha Hb. unfold strip. rewrite lstrip_app, Ha, lstrip_app.
  destruct (blank s) eqn:Hs.
  - apply lstrip_blank in Hb. apply lstrip_blank in Hs. rewrite Hb, Hs.
    reflexivity.
  - apply rstrip_app_blank. exact Hb.
Qed.

Lemma strip_head (s : str) (c : char) (r : str) :
  strip s = c :: r -> isspace c = false.
Proof.
  unfold strip. destruct (lstrip s) as [|h t] eqn:E; [discriminate|].
  pose proof (lstrip_head _ _ _ E) as Hh.
  rewrite (rstrip_cons _ _ Hh). intros H. injection H as -> _. exact Hh.
Qed.

Lemma strip_last (s : str) (x : char) :
  strip s <> [] -> isspace (last (strip s) x) = false.
Proof.
  unfold strip, rstrip.
  destruct (lstrip (rev (lstrip s))) as [|c r] eqn:E; [intros H; contradiction H; reflexivity|].
  intros _. simpl. rewrite last_last. exact (lstrip_head _ _ _ E).
Qed.

Lemma strip_trimmed (s : str) : blank s = false -> trimmed (strip s) = true.
Proof.
  intros H. apply strip_nonblank in H.
  destruct (strip s) as [|c r] eqn:E; [congruence|].
  unfold trimmed. rewrite <- E at 1.
  rewrite (strip_last s c) by congruence.
  rewrite (strip_head _ _ _ E). reflexivity.
Qed.

(** X1: in every run, interrupted or not, the body of every request issued is
    trimmed text: it is not empty and neither starts nor ends with a
    whitespace character.  The bridge never posts an empty body and never
    sends the line terminator along. *)
Theorem X1_request_bodies_are_trimmed (d : nat -> outcome) (stdin : list read) :
  Forall (fun rq => trimmed (data rq) = true) (requests_of (snd (main d stdin []))).
Proof.
  destruct (main_appends
              d (fun ev => Forall (fun rq => trimmed (data rq) = true) (requests_of ev)))
    with (stdin := stdin) (w := @nil event) as [ev [E H]].
  - constructor.
  - intros a b Ha Hb. rewrite requests_of_app. apply Forall_app. auto.
  - intros m. constructor.
  - intros line n. destruct (blank line) eqn:Hb.
    + destruct (line_events_blank line (d n) Hb) as [-> _]. constructor.
    + rewrite (line_events_requests _ _ Hb). repeat constructor.
      apply strip_trimmed. exact Hb.
  - rewrite E. exact H.
Qed.

(** X2: whitespace around a line does not matter.  A line and the same line
    with any whitespace before and after it (spaces, tabs, a different line
    terminator) make the iteration do exactly the same: the same request, the
    same output, the same diagnostics. *)
Theorem X2_surrounding_whitespace_is_irrelevant
        (d : nat -> outcome) (a line b : str) (w : world) :
  blank a = true ->
  blank b = true ->
  loop_body d (a ++ line ++ b) w = loop_body d line w.
Proof.
  intros Ha Hb. unfold loop_body. rewrite (strip_surrounded _ _ _ Ha Hb).
  reflexivity.
Qed.

Lemma X2_surrounding_whitespace_is_irrelevant_witness :
  loop_body flaky (lit "  " ++ ping ++ lit (String "009" (String "013" EmptyString)) ++ nl) []
  = loop_body flaky ping [].
Proof.
  apply (X2_surrounding_whitespace_is_irrelevant
           flaky (lit "  ") ping
           (lit (String "009" (String "013" EmptyString)) ++ nl) []);
    reflexivity.
Defined.

(* ================================================================= *)
(** ** The "Received Request" diagnostic *)

(** X3: the diagnostic logged when a line is received shows at most the first
    100 characters of the payload, so it is never longer than 134 characters
    however long the line is, while the request carries the payload in full
    (the three dots are appended whether or not anything was cut). *)
Theorem X3_received_diagnostic_is_bounded
        (d : nat -> outcome) (line : str) (w : world) :
  blank line = false ->
  exists diag rest,
    stderr_of (snd (loop_body d line w)) = stderr_of w ++ diag :: rest /\
    diag = lit "BRIDGE-LOG: Received Request: " ++ firstn 100 (strip line)
           ++ lit "..." ++ nl /\
    List.length diag = 34 + Nat.min 100 (List.length (strip line)) /\
    List.length diag <= 134 /\
    map data (requests_of (snd (loop_body d line w)))
    = map data (requests_of w) ++ [strip line].
Proof.
  intros H. rewrite loop_body_frame. cbn [snd].
  rewrite (line_events_nonblank _ _ H).
  rewrite !stderr_of_app, !requests_of_app, stderr_of_log, requests_of_log.
  eexists. eexists. split; [reflexivity|].
  split; [|split; [|split]].
  - unfold msg_received. rewrite <- !app_assoc. reflexivity.
  - unfold msg_received. rewrite !length_app, length_firstn.
    cbn -[Nat.min strip]. lia.
  - unfold msg_received. rewrite !length_app, length_firstn.
    cbn -[Nat.min strip]. lia.
  - rewrite map_app. f_equal.
    destruct (d (sent w)) as [r|[detail| |x]]; [destruct (status_code r =? 200)%Z|..];
      reflexivity.
Qed.

Lemma X3_received_diagnostic_is_bounded_witness :
  exists diag rest,
    stderr_of (snd (loop_body flaky (repeat 120%N 500 ++ nl) []))
    = stderr_of [] ++ diag :: rest /\
    diag = lit "BRIDGE-LOG: Received Request: "
           ++ firstn 100 (strip (repeat 120%N 500 ++ nl)) ++ lit "..." ++ nl /\
    List.length diag = 34 + Nat.min 100 (List.length (strip (repeat 120%N 500 ++ nl))) /\
    List.length diag <= 134 /\
    map data (requests_of (snd (loop_body flaky (repeat 120%N 500 ++ nl) [])))
    = map data (requests_of []) ++ [strip (repeat 120%N 500 ++ nl)].
Proof.
  apply (X3_received_diagnostic_is_bounded flaky (repeat 120%N 500 ++ nl) []).
  vm_compute. reflexivity.
Defined.

(* ================================================================= *)
(** ** Flushing *)

Lemma flushed_app (a b : world) :
  flushed a = true -> flushed (a ++ b) = flushed b.
Proof.
  remember (List.length a) as n eqn:Hn. revert a Hn.
  induction n as [n IH] using lt_wf_ind. intros a Hn H.
  destruct a as [|e a]; [reflexivity|].
  destruct e; try discriminate.
  - destruct a as [|[] a]; try discriminate.
    cbn [app flushed] in *. apply (IH (List.length a)); simpl in Hn; [lia|reflexivity|exact H].
  - destruct a as [|[] a]; try discriminate.
    cbn [app flushed] in *. apply (IH (List.length a)); simpl in Hn; [lia|reflexivity|exact H].
  - cbn [app flushed] in *. apply (IH (List.length a)); simpl in Hn; [lia|reflexivity|exact H].
Qed.

Lemma line_events_flushed (line : str) (o : outcome) :
  flushed (line_events line o) = true.
Proof.
  destruct (blank line) eqn:H.
  - destruct (line_events_blank line o H) as [-> _]. reflexivity.
  - rewrite (line_events_nonblank _ _ H).
    destruct o as [r|[detail| |x]]; [destruct (status_code r =? 200)%Z|..];
      reflexivity.
Qed.

(** X4: in every run, on both streams, every write is followed at once by a
    flush of the stream written to, before the script does anything else (in
    particular before it sends a request or waits for the next line); so what
    the script has written is never left in a buffer while it blocks. *)
Theorem X4_every_write_is_flushed (d : nat -> outcome) (stdin : list read) :
  flushed (snd (main d stdin [])) = true.
Proof.
  destruct (main_appends d (fun ev => flushed ev = true))
    with (stdin := stdin) (w := @nil event) as [ev [E H]].
  - reflexivity.
  - intros a b Ha Hb. rewrite (flushed_app _ _ Ha). exact Hb.
  - intros m. reflexivity.
  - intros line n. apply line_events_flushed.
  - rewrite E. exact H.
Qed.

(* ================================================================= *)
(** ** Counting what a run produces *)




(* ================================================================= *)
(** ** More input *)

(** The loop over an input in two parts is the loop over the first part and,
    unless that raised, the loop over the second. *)
Lemma for_line_in_app (body : str -> M unit) (a b : list read) :
  forall w,
    for_line_in (a ++ b) body w =
      match for_line_in a body w with
      | (Val _, w1) => for_line_in b body w1
      | (Exc e, w1) => (Exc e, w1)
      end.
Proof.
  induction a as [|[l| |x] a IH]; intros w; simpl;
    [reflexivity| |reflexivity|reflexivity].
  unfold bind. destruct (body l w) as [[[]|e] w1]; [apply IH|reflexivity].
Qed.

(** X6: the bridge works line by line.  When more input follows an input on
    which the loop ran to the end, everything the run did on that input is
    done again, event for event, before anything else: the run on the longer
    input extends the trace of the run on the shorter one.  When the loop
    ended on an input with an exception (the interrupt or one the script does
    not catch), whatever follows it is never read: the run is the same. *)
Theorem X6_later_input_does_not_change_earlier_events
        (d : nat -> outcome) (a b : list read) :
  match fst (for_line_in a (loop_body d) (log_events msg_starting)) with
  | Val _ => exists ev, snd (main d (a ++ b) []) = snd (main d a []) ++ ev
  | Exc _ => main d (a ++ b) [] = main d a []
  end.
Proof.
  rewrite !main_run. cbn [app]. rewrite for_line_in_app.
  destruct (for_line_in a (loop_body d) (log_events msg_starting))
    as [[[]|e] w1]; cbn [fst snd]; [|reflexivity].
  destruct (for_line_in_appends d (fun _ => True) I (fun _ _ _ _ => I)
                                (fun _ _ => I) b w1) as [ev [E _]].
  destruct (for_line_in b (loop_body d) w1) as [[u|[x| |x]] w2];
    cbn [snd] in *; subst w2.
  - exists ev. reflexivity.
  - exists ev. reflexivity.
  - exists (ev ++ log_events msg_shutdown). rewrite app_assoc. reflexivity.
  - exists ev. reflexivity.
Qed.

Lemma for_line_in_requests (d : nat -> outcome) (stdin : list read) :
  forall w, exists k,
    map data (requests_of (snd (for_line_in stdin (loop_body d) w)))
    = map data (requests_of w)
      ++ firstn k (map strip (filter nonblank (lines_of stdin))).
Proof.
  induction stdin as [|[l| |x] rest IH]; intros w.
  - exists 0. simpl. rewrite app_nil_r. reflexivity.
  - cbn [for_line_in lines_of flat_map app]. fold (lines_of rest).
    unfold bind. rewrite loop_body_frame, filter_nonblank_cons.
    destruct (blank l) eqn:H.
    + destruct (line_events_blank l (d (sent w)) H) as [-> ->].
      rewrite app_nil_r. apply IH.
    + destruct (line_result l (d (sent w))) as [[]|e].
      * destruct (IH (w ++ line_events l (d (sent w)))) as [k E].
        exists (S k). rewrite E, requests_of_app, (line_events_requests _ _ H).
        rewrite map_app, <- app_assoc. reflexivity.
      * exists 1. cbn [snd].
        rewrite requests_of_app, (line_events_requests _ _ H), map_app.
        reflexivity.
  - exists 0. simpl. rewrite app_nil_r. reflexivity.
  - exists 0. simpl. rewrite app_nil_r. reflexivity.
Qed.

(** X7: in every run, interrupted or not, the bodies of the requests issued
    are, in order, the first so many of the trimmed non-blank input lines:
    the bridge never sends a line twice, never skips a non-blank line to
    send a later one, and never sends anything that was not read. *)
Theorem X7_requests_follow_the_input (d : nat -> outcome) (stdin : list read) :
  exists k,
    map data (requests_of (snd (main d stdin [])))
    = firstn k (map strip (filter nonblank (lines_of stdin))).
Proof.
  destruct (for_line_in_requests d stdin (log_events msg_starting)) as [k E].
  exists k. rewrite main_run. cbn [app].
  destruct (for_line_in stdin (loop_body d) (log_events msg_starting))
    as [[u|[x| |x]] w2]; cbn [snd] in *;
    rewrite ?requests_of_app, ?requests_of_log, ?app_nil_r; exact E.
Qed.

Lemma for_line_in_blank (d : nat -> outcome) (lines : list str) :
  forallb blank lines = true ->
  forall w, for_line_in (map Line lines) (loop_body d) w = (Val tt, w).
Proof.
  induction lines as [|l lines IH]; intros H w; [reflexivity|].
  simpl in H. apply andb_prop in H. destruct H as [Hl H].
  cbn [map for_line_in]. unfold bind. rewrite loop_body_frame.
  destruct (line_events_blank l (d (sent w)) Hl) as [-> ->].
  rewrite app_nil_r. apply IH. exact H.
Qed.

(** X8: on an input of blank lines only, the empty input included, a run is
    the start-up diagnostic and nothing else: nothing is sent, nothing is
    written to standard output, no shutdown diagnostic is logged, and [main]
    returns. *)
Theorem X8_nothing_to_send (d : nat -> outcome) (lines : list str) :
  forallb blank lines = true ->
  main d (map Line lines) []
  = (Val tt, [StderrWrite (lit "BRIDGE-LOG: Starting MCP Stdio-to-HTTP Bridge..." ++ nl);
              StderrFlush]).
Proof.
  intros H. rewrite main_run, (for_line_in_blank _ _ H). reflexivity.
Qed.

Lemma X8_nothing_to_send_witness :
  main flaky (map Line [nl; lit "   " ++ nl; []]) []
  = (Val tt, [StderrWrite (lit "BRIDGE-LOG: Starting MCP Stdio-to-HTTP Bridge..." ++ nl);
              StderrFlush]).
Proof.
  apply (X8_nothing_to_send flaky [nl; lit "   " ++ nl; []]). reflexivity.
Defined.

(** X9: when the interrupt arrives while a request is in flight, the exchange
    is abandoned: the iteration raises [KeyboardInterrupt] right after the
    request, nothing is written to standard output and no error diagnostic
    is logged for it; the rest of the input is not read, and [main] logs the
    shutdown diagnostic and returns. *)
Theorem X9_interrupt_during_a_request
        (d : nat -> outcome) (line : str) (rest : list read) (w : world) :
  blank line = false ->
  d (sent w) = Raises KeyboardInterrupt ->
  let exchange := log_events (msg_received (strip line))
                  ++ [Http (post_of (strip line)) (Raises KeyboardInterrupt)] in
  loop_body d line w = (Exc KeyboardInterrupt, w ++ exchange) /\
  for_line_in (Line line :: rest) (loop_body d) w
  = (Exc KeyboardInterrupt, w ++ exchange) /\
  stdout_of exchange = [] /\
  main d (Line line :: rest) w
  = (Val tt, w ++ log_events msg_starting ++ exchange ++ log_events msg_shutdown).
Proof.
  intros H Hd exchange.
  assert (E : forall w', sent w' = sent w ->
                         loop_body d line w' = (Exc KeyboardInterrupt, w' ++ exchange)).
  { intros w' Hs. rewrite loop_body_frame, Hs, Hd.
    rewrite (line_events_nonblank _ _ H), (line_result_nonblank _ _ H).
    subst exchange. rewrite app_nil_r. reflexivity. }
  split; [apply E; reflexivity|].
  split; [cbn [for_line_in]; unfold bind; rewrite E; reflexivity|].
  split; [reflexivity|].
  rewrite main_run. cbn [for_line_in]. unfold bind. rewrite E.
  - rewrite <- !app_assoc. reflexivity.
  - rewrite sent_app. change (sent (log_events msg_starting)) with 0. lia.
Qed.

Lemma X9_interrupt_during_a_request_witness :
  let exchange := log_events (msg_received (strip ping))
                  ++ [Http (post_of (strip ping)) (Raises KeyboardInterrupt)] in
  loop_body (always (Raises KeyboardInterrupt)) ping []
  = (Exc KeyboardInterrupt, [] ++ exchange) /\
  for_line_in (Line ping :: [Line ping]) (loop_body (always (Raises KeyboardInterrupt))) []
  = (Exc KeyboardInterrupt, [] ++ exchange) /\
  stdout_of exchange = [] /\
  main (always (Raises KeyboardInterrupt)) (Line ping :: [Line ping]) []
  = (Val tt, [] ++ log_events msg_starting ++ exchange ++ log_events msg_shutdown).
Proof.
  apply (X9_interrupt_during_a_request
           (always (Raises KeyboardInterrupt)) ping [Line ping] []);
    reflexivity.
Defined.

(** X10: when a request raises an exception that is neither a
    [RequestException] nor the interrupt, neither handler catches it: the
    iteration raises it right after the request, nothing is written to
    standard output and no diagnostic is logged for it, the rest of the input
    is not read, and [main] ends with that exception, without the shutdown
    diagnostic; the exit status is 1. *)
Theorem X10_uncaught_exception_during_a_request
        (d : nat -> outcome) (line : str) (rest : list read) (w : world) (x : str) :
  blank line = false ->
  d (sent w) = Raises (OtherException x) ->
  let exchange := log_events (msg_received (strip line))
                  ++ [Http (post_of (strip line)) (Raises (OtherException x))] in
  loop_body d line w = (Exc (OtherException x), w ++ exchange) /\
  for_line_in (Line line :: rest) (loop_body d) w
  = (Exc (OtherException x), w ++ exchange) /\
  stdout_of exchange = [] /\
  main d (Line line :: rest) w
  = (Exc (OtherException x), w ++ log_events msg_starting ++ exchange) /\
  exit_code (fst (main d (Line line :: rest) w)) = 1%Z.
Proof.
  intros H Hd exchange.
  assert (E : forall w', sent w' = sent w ->
                         loop_body d line w' = (Exc (OtherException x), w' ++ exchange)).
  { intros w' Hs. rewrite loop_body_frame, Hs, Hd.
    rewrite (line_events_nonblank _ _ H), (line_result_nonblank _ _ H).
    subst exchange. rewrite app_nil_r. reflexivity. }
  assert (Em : main d (Line line :: rest) w
               = (Exc (OtherException x), w ++ log_events msg_starting ++ exchange)).
  { rewrite main_run. cbn [for_line_in]. unfold bind. rewrite E.
    - rewrite <- !app_assoc. reflexivity.
    - rewrite sent_app. change (sent (log_events msg_starting)) with 0. lia. }
  split; [apply E; reflexivity|].
  split; [cbn [for_line_in]; unfold bind; rewrite E; reflexivity|].
  split; [reflexivity|].
  split; [exact Em|]. rewrite Em. reflexivity.
Qed.

Lemma X10_uncaught_exception_during_a_request_witness :
  let exchange := log_events (msg_received (strip ping))
                  ++ [Http (post_of (strip ping))
                           (Raises (OtherException (lit "UnicodeEncodeError")))] in
  loop_body (always (Raises unencodable)) ping []
  = (Exc (OtherException (lit "UnicodeEncodeError")), [] ++ exchange) /\
  for_line_in (Line ping :: [Line ping]) (loop_body (always (Raises unencodable))) []
  = (Exc (OtherException (lit "UnicodeEncodeError")), [] ++ exchange) /\
  stdout_of exchange = [] /\
  main (always (Raises unencodable)) (Line ping :: [Line ping]) []
  = (Exc (OtherException (lit "UnicodeEncodeError")),
     [] ++ log_events msg_starting ++ exchange) /\
  exit_code (fst (main (always (Raises unencodable)) (Line ping :: [Line ping]) []))
  = 1%Z.
Proof.
  apply (X10_uncaught_exception_during_a_request
           (always (Raises unencodable)) ping [Line ping] []
           (lit "UnicodeEncodeError"));
    reflexivity.
Defined.
